(** * single-malt: the posts API of main.go

    A shallow embedding of the handlers of [main.go] (the slug generation of
    [handlePublish], the [posts] table and the five HTTP handlers) and the
    properties of them that the specification states. *)

From Stdlib Require Import ZArith Lia Ascii String.
From stdpp Require Import gmap strings list sorting.

Local Open Scope Z_scope.

(** ** Go strings

    [strings.ToLower] (through [strings.Map]) and [regexp] both read a Go
    string rune by rune, the way [range] does; a title decoded by
    [encoding/json] is valid UTF-8, so it is exactly its sequence of code
    points.  A string is modelled as that sequence; a rune is Go's [int32]
    code point.  Keys, header values and the secret are only compared for
    equality. *)

Abbreviation rune := Z (only parsing).
Abbreviation gostring := (list Z) (only parsing).

(** A rune literal ['c'] and a string literal of ASCII characters. *)
Definition rune_of (c : ascii) : rune := Z.of_N (N_of_ascii c).

Fixpoint runes (s : string) : gostring :=
  match s with
  | EmptyString => []
  | String c s' => rune_of c :: runes s'
  end.

(** ** Package unicode *)

(** [unicode.MaxASCII = '\u007F'] *)
Definition MaxASCII : rune := 127.

(** ** Package regexp, for a pattern that is one repeated character class *)

(** A character class of regexp/syntax: a list of ranges [lo-hi], negated
    when it is written [[^...]]. *)
Record charClass := CharClass { negated : bool; ranges : list (rune * rune) }.

Definition inRanges (rs : list (rune * rune)) (r : rune) : bool :=
  existsb (fun lohi => (fst lohi <=? r) && (r <=? snd lohi)) rs.

Definition classMatches (c : charClass) (r : rune) : bool :=
  xorb (negated c) (inRanges (ranges c) r).

(** [regexp.MustCompile(c+).ReplaceAllString(src, repl)], for a [repl] with
    no [$]: matches are leftmost and [+] is greedy, so every maximal run of
    runes of the class is one match and is replaced by [repl].  [inRun] says
    that the rune before the current one was part of a match. *)
Fixpoint ReplaceAllString_from (c : charClass) (inRun : bool)
    (src repl : gostring) : gostring :=
  match src with
  | [] => []
  | r :: rest =>
      if classMatches c r
      then (if inRun then [] else repl) ++ ReplaceAllString_from c true rest repl
      else r :: ReplaceAllString_from c false rest repl
  end.

Definition ReplaceAllString (c : charClass) (src repl : gostring) : gostring :=
  ReplaceAllString_from c false src repl.

(** ** Package strings *)

(** [strings.ReplaceAll(s, old, new)] for an [old] of one rune: every
    occurrence of [old] is replaced by [new]. *)
Definition strings_ReplaceAll (s : gostring) (old : rune) (new : gostring) : gostring :=
  flat_map (fun r => if r =? old then new else [r]) s.

Section Unicode.

(** [unicode.To(unicode.LowerCase, r)]: the lower case of a rune above
    [MaxASCII], read by the library from its table of case ranges. *)
Variable To_LowerCase : rune -> rune.

(** [unicode.ToLower] *)
Definition unicode_ToLower (r : rune) : rune :=
  if r <=? MaxASCII then
    if (rune_of "A" <=? r) && (r <=? rune_of "Z")
    then r + (rune_of "a" - rune_of "A")
    else r
  else To_LowerCase r.

(** [strings.ToLower]: [unicode.ToLower] on every rune (the ASCII fast path
    computes the same string). *)
Definition strings_ToLower (s : gostring) : gostring := map unicode_ToLower s.

(** ** Slug generation (main.go, handlePublish, lines 104-112) *)

(** [reg := regexp.MustCompile("[^a-z0-9 ]+")] *)
Definition reg : charClass :=
  CharClass true
    [ (rune_of "a", rune_of "z"); (rune_of "0", rune_of "9"); (rune_of " ", rune_of " ") ].

(** The body of [if p.Slug == "" { ... }]: the slug generated from a title. *)
Definition SlugNormalizer (title : gostring) : gostring :=
  (* 1. Lowercase *)
  let s := strings_ToLower title in
  (* 2. Remove anything that isn't a-z, 0-9, or space *)
  let s := ReplaceAllString reg s [] in
  (* 3. Replace spaces with hyphens *)
  strings_ReplaceAll s (rune_of " ") (runes "-").

(** The older variant of the same lines (lines 337-340):
    [p.Slug = strings.ToLower(strings.ReplaceAll(p.Title, " ", "-"))]. *)
Definition SlugNormalizer_old (title : gostring) : gostring :=
  strings_ToLower (strings_ReplaceAll title (rune_of " ") (runes "-")).

(** The policy as the specification words it, for comparison with
    [SlugNormalizer]: lower-case the title, strip every character outside
    [[a-z0-9 ]], then replace each maximal run of spaces with one hyphen. *)
Definition spaces : charClass := CharClass false [ (rune_of " ", rune_of " ") ].

Definition SlugNormalizer_spec (title : gostring) : gostring :=
  ReplaceAllString spaces (ReplaceAllString reg (strings_ToLower title) []) (runes "-").

End Unicode.

(** The runes of [[a-z0-9 ]], and what step 3 does to one rune. *)
Definition inSlugAlphabet (r : rune) : bool :=
  ((rune_of "a" <=? r) && (r <=? rune_of "z"))
  || ((rune_of "0" <=? r) && (r <=? rune_of "9"))
  || (r =? rune_of " ").

Definition hyphenate (r : rune) : rune :=
  if r =? rune_of " " then rune_of "-" else r.

(** The runes a generated slug is made of: [[a-z0-9]] and the hyphen. *)
Definition isSlugRune (r : rune) : Prop :=
  r = rune_of "-" \/ (inSlugAlphabet r = true /\ r <> rune_of " ").

(** A case table for closed examples: the two runes above [MaxASCII] that Go
    lowers to ASCII letters (U+0130 to [i], U+212A to [k]); the other runes
    are left as they are.  The examples below use ASCII titles, which never
    reach the table. *)
Definition sampleLowerCase (r : rune) : rune :=
  if r =? 304 then rune_of "i" else if r =? 8490 then rune_of "k" else r.

(** ** The data structures and the store (main.go, sections 1 and 2) *)

(** [time.Time]: an instant, counted in nanoseconds since the epoch. *)
Abbreviation time := Z (only parsing).

(** What the table keeps of an instant.  The driver (modernc.org/sqlite)
    binds a [time.Time] as the text of [t.String()], in the layout
    ["2006-01-02 15:04:05.999999999 -0700 MST"], and [time.Now()] is in the
    zone [time.Local]: the text is the reading of the server's wall clock,
    followed by the zone.  [zone t] stands for the offset from UTC, in
    nanoseconds, that [time.Local] has at the instant [t]; [wallClock zone t]
    is the reading that the text of [t] starts with. *)
Definition wallClock (zone : time -> Z) (t : time) : Z := t + zone t.

(** [type Post struct] *)
Record Post := mkPost {
  Slug : gostring;
  Title : gostring;
  Description : gostring;
  Content : gostring;
  PublishedAt : time
}.

(** A row of the table [posts (slug TEXT PRIMARY KEY, title, description,
    content, published_at)], without its key column.  The table is a finite
    map from the primary key to the rest of the row. *)
Record row := Row {
  title : gostring;
  description : gostring;
  content : gostring;
  published_at : time
}.

Abbreviation table := (gmap (list Z) row) (only parsing).

(** [INSERT INTO posts (slug, title, description, content, published_at)
     VALUES (?, ?, ?, ?, ?)
     ON CONFLICT(slug) DO UPDATE SET title=excluded.title,
       content=excluded.content, description=excluded.description] *)
Definition sql_upsert (p : Post) (db : table) : table * Z :=
  match db !! Slug p with
  | Some old =>
      (<[Slug p := Row (Title p) (Description p) (Content p) (published_at old)]> db, 1)
  | None =>
      (<[Slug p := Row (Title p) (Description p) (Content p) (PublishedAt p)]> db, 1)
  end.

(** [UPDATE posts SET title = ?, description = ?, content = ? WHERE slug = ?];
    the count is the number of rows the [WHERE] selects. *)
Definition sql_update (t d c slug : gostring) (db : table) : table * Z :=
  match db !! slug with
  | Some old => (<[slug := Row t d c (published_at old)]> db, 1)
  | None => (db, 0)
  end.

(** [DELETE FROM posts WHERE slug = ?] *)
Definition sql_delete (slug : gostring) (db : table) : table * Z :=
  match db !! slug with
  | Some _ => (delete slug db, 1)
  | None => (db, 0)
  end.

(** [ORDER BY published_at DESC]: the column holds the texts, and SQLite
    compares them byte by byte.  For the years 0000 to 9999 the date, the
    time of day and the fraction of the second compare as the wall-clock
    readings do, so a row comes before another when its reading is not
    smaller.  Two rows with one reading are ordered by the rest of their
    texts; the model leaves their order to the sort. *)
Definition newerFirst (zone : time -> Z) (a b : gostring * row) : Prop :=
  wallClock zone (published_at (snd b)) <= wallClock zone (published_at (snd a)).

#[global] Instance newerFirst_dec zone : RelDecision (newerFirst zone) :=
  fun a b => Z_le_dec (wallClock zone (published_at (snd b)))
                      (wallClock zone (published_at (snd a))).

#[global] Instance newerFirst_trans zone : Transitive (newerFirst zone).
Proof. intros x y z. unfold newerFirst. lia. Qed.

#[global] Instance newerFirst_total zone : Total (newerFirst zone).
Proof. intros x y. unfold newerFirst. lia. Qed.

(** [SELECT slug, title, description, published_at FROM posts
     ORDER BY published_at DESC], each row scanned into a [Post] whose
    [Content] stays the zero value. *)
Definition scanSummary (kv : gostring * row) : Post :=
  mkPost (fst kv) (title (snd kv)) (description (snd kv)) [] (published_at (snd kv)).

Definition sql_select_summaries (zone : time -> Z) (db : table) : list Post :=
  scanSummary <$> merge_sort (newerFirst zone) (map_to_list db).

(** [SELECT slug, title, description, content, published_at FROM posts
     WHERE slug = ?] and [row.Scan]: [sql.ErrNoRows] without a row. *)
Definition ErrNoRows : gostring := runes "sql: no rows in result set".

Definition scanPost (slug : gostring) (r : row) : Post :=
  mkPost slug (title r) (description r) (content r) (published_at r).

(** The storage engine may refuse a statement (a locked or unreadable file, a
    closed handle): [fault] is the error it raises for this call, if any.  A
    refused statement changes nothing. *)
Definition db_Exec (fault : option gostring) (stmt : table -> table * Z)
    (db : table) : table * (gostring + Z) :=
  match fault with
  | Some err => (db, inl err)
  | None => let '(db', n) := stmt db in (db', inr n)
  end.

Definition db_Query (zone : time -> Z) (fault : option gostring) (db : table) :
    gostring + list Post :=
  match fault with
  | Some err => inl err
  | None => inr (sql_select_summaries zone db)
  end.

Definition db_QueryRow_Scan (fault : option gostring) (slug : gostring)
    (db : table) : gostring + Post :=
  match fault with
  | Some err => inl err
  | None =>
      match db !! slug with
      | Some r => inr (scanPost slug r)
      | None => inl ErrNoRows
      end
  end.

(** ** Requests and responses *)

(** What a handler reads of [*http.Request]: the [X-MALT-KEY] header ([None]
    when the request has none), the [{slug}] segment of the path, and the
    body as [json.Decode] reads it into a [Post] ([None] when it fails). *)
Record Request := mkRequest {
  X_MALT_KEY : option gostring;
  PathValue_slug : gostring;
  Body : option Post
}.

(** [r.Header.Get] and [os.Getenv] both give [""] for what is not there. *)
Definition Header_Get (h : option gostring) : gostring := default [] h.
Definition os_Getenv (v : option gostring) : gostring := default [] v.

(** What a handler writes: the status code and the body, plain text from
    [http.Error] or the value given to [jsonResponse]. *)
Inductive payload :=
| PlainText (msg : gostring)
| JSONPosts (posts : list Post)
| JSONPost (p : Post)
| JSONMap (m : list (gostring * gostring)).

Record Response := mkResponse { StatusCode : Z; Payload : payload }.

Definition http_Error (msg : gostring) (code : Z) : Response :=
  mkResponse code (PlainText msg).

Definition jsonResponse (data : payload) : Response := mkResponse 200 data.




(** ** Handlers (main.go, section 3) *)

Section Handlers.

Variable To_LowerCase : rune -> rune.

(** GET /api/posts.  Every row of the typed table scans into a [Post], so
    the [continue] of the loop over the rows is never taken. *)
Definition handleListPosts (zone : time -> Z) (fault : option gostring) (db : table) :
    Response :=
  match db_Query zone fault db with
  | inl _ => http_Error (runes "Database error") 500
  | inr posts => jsonResponse (JSONPosts posts)
  end.

(** GET /api/posts/{slug} *)
Definition handleGetPost (fault : option gostring) (r : Request) (db : table) : Response :=
  let slug := PathValue_slug r in
  match db_QueryRow_Scan fault slug db with
  | inl _ => http_Error (runes "Post not found") 404
  | inr p => jsonResponse (JSONPost p)
  end.

(** The slug [handlePublish] stores a decoded post under. *)
Definition resolveSlug (p : Post) : gostring :=
  if decide (Slug p = []) then SlugNormalizer To_LowerCase (Title p) else Slug p.

(** POST /api/publish; [secret] is the environment's [MALT_SECRET] ([None]
    when unset) and [now] what [time.Now()] returns. *)
Definition handlePublish (secret : option gostring) (now : time)
    (fault : option gostring) (r : Request) (db : table) : table * Response :=
  if decide (Header_Get (X_MALT_KEY r) <> os_Getenv secret) then
    (db, http_Error (runes "Go away") 401)
  else
    match Body r with
    | None => (db, http_Error (runes "Bad JSON") 400)
    | Some p =>
        let p := mkPost (resolveSlug p) (Title p) (Description p) (Content p) now in
        match db_Exec fault (sql_upsert p) db with
        | (db', inl err) => (db', http_Error (runes "Failed to save: " ++ err) 500)
        | (db', inr _) =>
            (db', jsonResponse (JSONMap [ (runes "status", runes "published");
                                          (runes "link", runes "/post/" ++ Slug p) ]))
        end
    end.

(** DELETE /api/posts/{slug} *)
Definition handleDeletePost (secret : option gostring) (fault : option gostring)
    (r : Request) (db : table) : table * Response :=
  if decide (Header_Get (X_MALT_KEY r) <> os_Getenv secret) then
    (db, http_Error (runes "Go away") 401)
  else
    let slug := PathValue_slug r in
    match db_Exec fault (sql_delete slug) db with
    | (db', inl err) => (db', http_Error (runes "Database error: " ++ err) 500)
    | (db', inr rowsAffected) =>
        if rowsAffected =? 0 then (db', http_Error (runes "Post not found") 404)
        else (db', jsonResponse (JSONMap [ (runes "status", runes "deleted");
                                           (runes "slug", slug) ]))
    end.

(** PUT /api/posts/{slug} *)
Definition handleUpdatePost (secret : option gostring) (fault : option gostring)
    (r : Request) (db : table) : table * Response :=
  if decide (Header_Get (X_MALT_KEY r) <> os_Getenv secret) then
    (db, http_Error (runes "Go away") 401)
  else
    let slug := PathValue_slug r in
    match Body r with
    | None => (db, http_Error (runes "Bad JSON") 400)
    | Some p =>
        match db_Exec fault (sql_update (Title p) (Description p) (Content p) slug) db with
        | (db', inl err) => (db', http_Error (runes "Database error: " ++ err) 500)
        | (db', inr rowsAffected) =>
            if rowsAffected =? 0 then (db', http_Error (runes "Post not found") 404)
            else (db', jsonResponse (JSONMap [ (runes "status", runes "updated");
                                               (runes "slug", slug) ]))
        end
    end.

(** The entry of [GET /api/posts] for a decoded post that [handlePublish]
    inserted at the instant [t]. *)
Definition summaryOf (p : Post) (t : time) : Post :=
  mkPost (resolveSlug p) (Title p) (Description p) [] t.

End Handlers.

(** ** The routes that write (main.go, section 4, lines 215-219)

    [main] registers [handlePublish] for [POST /api/publish],
    [handleDeletePost] for [DELETE /api/posts/{slug}] and [handleUpdatePost]
    for [PUT /api/posts/{slug}].  A write is a request to one of these
    routes, with what its handler reads of the clock and of the storage. *)
Inductive write :=
| POST_publish (now : time) (fault : option gostring) (r : Request)
| DELETE_post (fault : option gostring) (r : Request)
| PUT_post (fault : option gostring) (r : Request).

Definition serveWrite (lower : rune -> rune) (secret : option gostring)
    (w : write) (db : table) : table * Response :=
  match w with
  | POST_publish now fault r => handlePublish lower secret now fault r db
  | DELETE_post fault r => handleDeletePost secret fault r db
  | PUT_post fault r => handleUpdatePost secret fault r db
  end.

(** The table after a history of writes; each handler runs one statement,
    and the storage engine runs the statements one after the other. *)
Fixpoint serveWrites (lower : rune -> rune) (secret : option gostring)
    (ws : list write) (db : table) : table :=
  match ws with
  | [] => db
  | w :: ws' => serveWrites lower secret ws' (fst (serveWrite lower secret w db))
  end.

(** The request of a write. *)
Definition requestOf (w : write) : Request :=
  match w with
  | POST_publish _ _ r => r
  | DELETE_post _ r => r
  | PUT_post _ r => r
  end.

(** A slug that [DELETE_post] or any other write of a history may not remove:
    no delete of the history names it. *)
Definition keepsSlug (slug : gostring) (w : write) : Prop :=
  match w with
  | DELETE_post _ r => PathValue_slug r <> slug
  | _ => True
  end.

(** ** Sample data for closed examples *)

Definition sampleSecret : option gostring := Some (runes "s3cret").

(** A table with one post, published at instant 10. *)
Definition sampleDB : table :=
  {[ runes "hello" := Row (runes "Hello") (runes "first draft") (runes "v1") 10 ]}.

(** The body of a request that publishes or updates the post [hello]. *)
Definition samplePost : Post :=
  mkPost (runes "hello") (runes "Hello again") (runes "second draft") (runes "v2") 0.

(** Requests with the right key, with a wrong key and with no key. *)
Definition goodRequest : Request :=
  mkRequest (Some (runes "s3cret")) (runes "hello") (Some samplePost).

Definition badRequest : Request :=
  mkRequest (Some (runes "guess")) (runes "hello") (Some samplePost).

Definition bareRequest : Request :=
  mkRequest None (runes "hello") (Some samplePost).

(** Three posts, one with a slug of its own and two with generated slugs. *)
Definition postA : Post := mkPost (runes "first") (runes "One") (runes "a") (runes "aa") 0.
Definition postB : Post := mkPost [] (runes "Second Post!") (runes "b") (runes "bb") 0.

Definition publishRequest (p : Post) : Request :=
  mkRequest (Some (runes "s3cret")) [] (Some p).

(** An update of a post that is not in [sampleDB]. *)
Definition strayRequest : Request :=
  mkRequest (Some (runes "s3cret")) (runes "nowhere") (Some samplePost).

(** A post whose title has no letter, digit or space, and two posts whose
    titles differ in case and punctuation only; none has a slug of its own. *)
Definition punctPost : Post := mkPost [] (runes "?!") (runes "p") (runes "pp") 0.
Definition helloPost1 : Post := mkPost [] (runes "Hello World") (runes "h1") (runes "one") 0.
Definition helloPost2 : Post := mkPost [] (runes "hello, world!") (runes "h2") (runes "two") 0.

(** Two zones: one whose offset never changes, and one that goes from two
    hours to one hour east of UTC at 2024-10-27 01:00:00 UTC, as the clocks
    of central Europe did. *)
Definition fixedZone (t : time) : Z := 3600000000000.



(** A [GET /api/posts/{slug}] request. *)
Definition getRequest (slug : gostring) : Request := mkRequest None slug None.

(** Rune literals as numbers, then a case analysis of the comparisons. *)
Ltac rune_consts :=
  repeat match goal with
  | |- context [rune_of ?c] =>
      let v := eval vm_compute in (rune_of c) in change (rune_of c) with v
  | H : context [rune_of ?c] |- _ =>
      let v := eval vm_compute in (rune_of c) in change (rune_of c) with v in H
  end.

Ltac rune_cases :=
  rune_consts;
  repeat match goal with
  | |- context [?a <=? ?b] => destruct (Z.leb_spec a b)
  | |- context [?a =? ?b] => destruct (Z.eqb_spec a b)
  | H : context [?a <=? ?b] |- _ => destruct (Z.leb_spec a b)
  | H : context [?a =? ?b] |- _ => destruct (Z.eqb_spec a b)
  end;
  simpl in *; try reflexivity; try discriminate; try lia.

(** * Properties *)

(** ** Slug generation *)

Lemma filter_fixed {A} (f : A -> bool) (l : list A) :
  List.filter f l = l <-> (forall x, In x l -> f x = true).
Proof.
  induction l as [|a l IH]; simpl.
  - split; [intros _ x []|reflexivity].
  - destruct (f a) eqn:Hfa.
    + split.
      * intros Heq x [<-|Hx]; [assumption|].
        injection Heq as Heq. now apply IH.
      * intros Hall. f_equal. apply IH. intros x Hx. apply Hall. now right.
    + split.
      * intros Heq. pose proof (List.filter_length_le f l) as Hlen.
        rewrite Heq in Hlen. simpl in Hlen. lia.
      * intros Hall. specialize (Hall a (or_introl eq_refl)). congruence.
Qed.

Section SlugProperties.

Variable lower : rune -> rune.

Lemma ReplaceAllString_from_empty c inRun s :
  ReplaceAllString_from c inRun s [] = List.filter (fun r => negb (classMatches c r)) s.
Proof.
  revert inRun. induction s as [|r s IH]; intros inRun; simpl; [reflexivity|].
  destruct (classMatches c r); simpl.
  - rewrite IH. now destruct inRun.
  - now rewrite IH.
Qed.

Lemma strings_ReplaceAll_rune s old new :
  strings_ReplaceAll s old [new] = map (fun r => if r =? old then new else r) s.
Proof.
  unfold strings_ReplaceAll.
  induction s as [|r s IH]; simpl; [reflexivity|].
  rewrite IH. now destruct (r =? old).
Qed.

Lemma reg_inSlugAlphabet r : classMatches reg r = negb (inSlugAlphabet r).
Proof.
  unfold classMatches, reg, inSlugAlphabet, inRanges; simpl.
  rewrite orb_false_r.
  replace ((rune_of " " <=? r) && (r <=? rune_of " ")) with (r =? rune_of " ").
  - now rewrite orb_assoc.
  - destruct (Z.eqb_spec r (rune_of " ")) as [->|Hne].
    + now rewrite Z.leb_refl.
    + symmetry. apply andb_false_iff.
      destruct (Z.leb_spec (rune_of " ") r); [right|now left].
      apply Z.leb_gt. lia.
Qed.

(** What the three steps compute, rune by rune. *)
Lemma SlugNormalizer_runes title :
  SlugNormalizer lower title
  = map hyphenate (List.filter inSlugAlphabet (strings_ToLower lower title)).
Proof.
  unfold SlugNormalizer, ReplaceAllString. simpl runes.
  rewrite ReplaceAllString_from_empty, strings_ReplaceAll_rune.
  f_equal. apply List.filter_ext. intros r.
  rewrite reg_inSlugAlphabet. apply negb_involutive.
Qed.

Lemma SlugNormalizer_app s t :
  SlugNormalizer lower (s ++ t) = SlugNormalizer lower s ++ SlugNormalizer lower t.
Proof.
  rewrite !SlugNormalizer_runes. unfold strings_ToLower.
  now rewrite List.map_app, List.filter_app, List.map_app.
Qed.

Lemma SlugNormalizer_repeat_space n :
  SlugNormalizer lower (repeat (rune_of " ") n) = repeat (rune_of "-") n.
Proof.
  rewrite SlugNormalizer_runes.
  induction n as [|n IH]; simpl; [reflexivity|]. now rewrite IH.
Qed.

Lemma SlugNormalizer_alphabet title : Forall isSlugRune (SlugNormalizer lower title).
Proof.
  rewrite SlugNormalizer_runes.
  induction (strings_ToLower lower title) as [|r l IH]; simpl; [constructor|].
  destruct (inSlugAlphabet r) eqn:Hr; [|assumption].
  simpl. constructor; [|assumption].
  unfold isSlugRune, hyphenate.
  destruct (Z.eqb_spec r (rune_of " ")); [now left|right; now split].
Qed.

(** On a string of slug runes the three steps only drop the hyphens. *)
Lemma SlugNormalizer_of_slug u :
  Forall isSlugRune u ->
  SlugNormalizer lower u = List.filter (fun r => negb (r =? rune_of "-")) u.
Proof.
  intros Hu. rewrite SlugNormalizer_runes. unfold strings_ToLower.
  induction Hu as [|r u Hr _ IH]; simpl; [reflexivity|].
  rewrite <- IH. clear IH.
  assert (Hlow : unicode_ToLower lower r = r).
  { unfold unicode_ToLower, MaxASCII.
    destruct Hr as [->|[Hr _]]; [reflexivity|].
    unfold inSlugAlphabet in Hr. rune_cases. }
  rewrite Hlow.
  destruct Hr as [->|[Hr Hsp]]; [reflexivity|].
  rewrite Hr.
  assert (Hhy : (r =? rune_of "-") = false).
  { unfold inSlugAlphabet in Hr. rune_cases. }
  rewrite Hhy. simpl. f_equal.
  unfold hyphenate. now destruct (Z.eqb_spec r (rune_of " ")).
Qed.

Lemma SlugNormalizer_hyphen title :
  In (rune_of "-") (SlugNormalizer lower title)
  <-> In (rune_of " ") (strings_ToLower lower title).
Proof.
  rewrite SlugNormalizer_runes.
  induction (strings_ToLower lower title) as [|r l IH]; simpl; [reflexivity|].
  destruct (inSlugAlphabet r) eqn:Hr; simpl.
  - rewrite IH. unfold hyphenate.
    destruct (Z.eqb_spec r (rune_of " ")) as [->|Hne].
    + split; intros _; now left.
    + split; (intros [Heq|Hin]; [|now right]).
      * exfalso. subst r. discriminate Hr.
      * congruence.
  - rewrite IH. split; [now right|].
    intros [Heq|Hin]; [|assumption].
    subst r. discriminate Hr.
Qed.



End SlugProperties.

(** ** The claims on slug generation *)

(** C1 (counterexample): the title ["a b"] gives the slug ["a-b"], and the
    slug generated from ["a-b"] is ["ab"]: generating a slug from a generated
    slug does not return it unchanged. *)
Lemma SlugNormalizer_not_idempotent :
  SlugNormalizer sampleLowerCase (runes "a b") = runes "a-b"
  /\ SlugNormalizer sampleLowerCase (SlugNormalizer sampleLowerCase (runes "a b")) = runes "ab"
  /\ SlugNormalizer sampleLowerCase (SlugNormalizer sampleLowerCase (runes "a b"))
     <> SlugNormalizer sampleLowerCase (runes "a b").
Proof. vm_compute. repeat split. discriminate. Qed.

(** C1 (amended): generating a slug from a generated slug drops the hyphens
    of that slug and changes nothing else; so it returns the slug unchanged
    exactly when the lower-cased title has no space, for every case table. *)
Theorem SlugNormalizer_twice (lower : rune -> rune) (title : gostring) :
  SlugNormalizer lower (SlugNormalizer lower title)
  = List.filter (fun r => negb (r =? rune_of "-")) (SlugNormalizer lower title)
  /\ (SlugNormalizer lower (SlugNormalizer lower title) = SlugNormalizer lower title
      <-> ~ In (rune_of " ") (strings_ToLower lower title)).
Proof.
  pose proof (SlugNormalizer_of_slug lower _ (SlugNormalizer_alphabet lower title)) as Htwice.
  split; [exact Htwice|].
  rewrite Htwice, filter_fixed, <- SlugNormalizer_hyphen.
  split.
  - intros Hall Hin. specialize (Hall _ Hin). now rewrite Z.eqb_refl in Hall.
  - intros Hnot r Hr. destruct (Z.eqb_spec r (rune_of "-")) as [->|]; [contradiction|reflexivity].
Qed.

(** C2 (counterexample): the title ["a  b"], with a run of two spaces, gives
    the slug ["a--b"], with two hyphens; replacing each maximal run of spaces
    by one hyphen, as the claim words it, would give ["a-b"]. *)
Lemma SlugNormalizer_two_spaces :
  SlugNormalizer sampleLowerCase (runes "a  b") = runes "a--b"
  /\ SlugNormalizer_spec sampleLowerCase (runes "a  b") = runes "a-b"
  /\ SlugNormalizer sampleLowerCase (runes "a  b")
     <> SlugNormalizer_spec sampleLowerCase (runes "a  b").
Proof. vm_compute. repeat split. discriminate. Qed.

(** C2 (amended): for every title the slug is the lower-cased title with the
    runes outside [[a-z0-9 ]] dropped and each remaining space replaced by
    one hyphen: a run of [n] spaces between two parts of a title gives [n]
    hyphens between their slugs.  The title ["Hello, World! 2024"] gives
    ["hello-world-2024"]. *)
Theorem SlugNormalizer_each_space (lower : rune -> rune) :
  (forall title,
      SlugNormalizer lower title
      = map hyphenate (List.filter inSlugAlphabet (strings_ToLower lower title)))
  /\ (forall s t n,
        SlugNormalizer lower (s ++ repeat (rune_of " ") n ++ t)
        = SlugNormalizer lower s ++ repeat (rune_of "-") n ++ SlugNormalizer lower t)
  /\ SlugNormalizer lower (runes "Hello, World! 2024") = runes "hello-world-2024".
Proof.
  split; [apply SlugNormalizer_runes|]. split.
  - intros s t n. now rewrite !SlugNormalizer_app, SlugNormalizer_repeat_space.
  - rewrite SlugNormalizer_runes. reflexivity.
Qed.



(** ** The store and the handlers *)

(** The three statements that write, one case each. *)
Lemma sql_upsert_conflict p db old :
  db !! Slug p = Some old ->
  sql_upsert p db
  = (<[Slug p := Row (Title p) (Description p) (Content p) (published_at old)]> db, 1).
Proof. intros H. unfold sql_upsert. now rewrite H. Qed.

Lemma sql_upsert_fresh p db :
  db !! Slug p = None ->
  sql_upsert p db
  = (<[Slug p := Row (Title p) (Description p) (Content p) (PublishedAt p)]> db, 1).
Proof. intros H. unfold sql_upsert. now rewrite H. Qed.

Lemma sql_upsert_other p db slug :
  slug <> Slug p -> fst (sql_upsert p db) !! slug = db !! slug.
Proof.
  intros H. unfold sql_upsert.
  destruct (db !! Slug p); simpl; now rewrite lookup_insert_ne.
Qed.

Lemma authorized_publish lower secret now fault r db :
  Header_Get (X_MALT_KEY r) = os_Getenv secret ->
  handlePublish lower secret now fault r db
  = match Body r with
    | None => (db, http_Error (runes "Bad JSON") 400)
    | Some p =>
        let p := mkPost (resolveSlug lower p) (Title p) (Description p) (Content p) now in
        match db_Exec fault (sql_upsert p) db with
        | (db', inl err) => (db', http_Error (runes "Failed to save: " ++ err) 500)
        | (db', inr _) =>
            (db', jsonResponse (JSONMap [ (runes "status", runes "published");
                                          (runes "link", runes "/post/" ++ Slug p) ]))
        end
    end.
Proof. intros H. unfold handlePublish. now destruct (decide _). Qed.

Lemma authorized_delete secret fault r db :
  Header_Get (X_MALT_KEY r) = os_Getenv secret ->
  handleDeletePost secret fault r db
  = match db_Exec fault (sql_delete (PathValue_slug r)) db with
    | (db', inl err) => (db', http_Error (runes "Database error: " ++ err) 500)
    | (db', inr rowsAffected) =>
        if rowsAffected =? 0 then (db', http_Error (runes "Post not found") 404)
        else (db', jsonResponse (JSONMap [ (runes "status", runes "deleted");
                                           (runes "slug", PathValue_slug r) ]))
    end.
Proof. intros H. unfold handleDeletePost. now destruct (decide _). Qed.

Lemma authorized_update secret fault r db :
  Header_Get (X_MALT_KEY r) = os_Getenv secret ->
  handleUpdatePost secret fault r db
  = match Body r with
    | None => (db, http_Error (runes "Bad JSON") 400)
    | Some p =>
        match db_Exec fault
                (sql_update (Title p) (Description p) (Content p) (PathValue_slug r)) db with
        | (db', inl err) => (db', http_Error (runes "Database error: " ++ err) 500)
        | (db', inr rowsAffected) =>
            if rowsAffected =? 0 then (db', http_Error (runes "Post not found") 404)
            else (db', jsonResponse (JSONMap [ (runes "status", runes "updated");
                                               (runes "slug", PathValue_slug r) ]))
        end
    end.
Proof. intros H. unfold handleUpdatePost. now destruct (decide _). Qed.

(** C3: an authorized publish whose slug is already in the table overwrites
    the title, description and content of that row and keeps its
    published_at and its key (the table has the same keys); for a slug that
    is not in the table it inserts a new row, stamped with the current time.
    No other row changes. *)
Theorem handlePublish_upsert (lower : rune -> rune) (secret : option gostring)
    (now : time) (r : Request) (p : Post) (db : table) :
  Header_Get (X_MALT_KEY r) = os_Getenv secret ->
  Body r = Some p ->
  (forall old, db !! resolveSlug lower p = Some old ->
     fst (handlePublish lower secret now None r db)
     = <[resolveSlug lower p :=
           Row (Title p) (Description p) (Content p) (published_at old)]> db
     /\ dom (fst (handlePublish lower secret now None r db)) = dom db)
  /\ (db !! resolveSlug lower p = None ->
      fst (handlePublish lower secret now None r db)
      = <[resolveSlug lower p := Row (Title p) (Description p) (Content p) now]> db
      /\ size (fst (handlePublish lower secret now None r db)) = S (size db))
  /\ (forall slug, slug <> resolveSlug lower p ->
      fst (handlePublish lower secret now None r db) !! slug = db !! slug)
  /\ StatusCode (snd (handlePublish lower secret now None r db)) = 200.
Proof.
  intros Hauth Hbody.
  rewrite (authorized_publish _ _ _ _ _ _ Hauth), Hbody.
  cbv zeta. unfold db_Exec.
  set (q := mkPost (resolveSlug lower p) (Title p) (Description p) (Content p) now).
  change (resolveSlug lower p) with (Slug q).
  split; [|split; [|split]].
  - intros old Hold. rewrite (sql_upsert_conflict q db old Hold). simpl.
    split; [reflexivity|].
    apply dom_insert_lookup_L. now exists old.
  - intros Hnone. rewrite (sql_upsert_fresh q db Hnone). simpl.
    split; [reflexivity|]. now apply map_size_insert_None.
  - intros slug Hne. pose proof (sql_upsert_other q db slug Hne) as Hother.
    now destruct (sql_upsert q db).
  - now destruct (sql_upsert q db).
Qed.

(** C3 at a second publish of the post [hello] of [sampleDB], at instant 20:
    the row keeps the instant 10. *)
Lemma handlePublish_upsert_witness :
  sampleDB !! resolveSlug sampleLowerCase samplePost
  = Some (Row (runes "Hello") (runes "first draft") (runes "v1") 10)
  /\ fst (handlePublish sampleLowerCase sampleSecret 20 None goodRequest sampleDB)
     = <[resolveSlug sampleLowerCase samplePost :=
           Row (Title samplePost) (Description samplePost) (Content samplePost) 10]> sampleDB.
Proof.
  assert (Hold : sampleDB !! resolveSlug sampleLowerCase samplePost
                 = Some (Row (runes "Hello") (runes "first draft") (runes "v1") 10)).
  { vm_compute. reflexivity. }
  split; [exact Hold|].
  exact (proj1 (proj1 (handlePublish_upsert sampleLowerCase sampleSecret 20
                         goodRequest samplePost sampleDB eq_refl eq_refl) _ Hold)).
Defined.

(** C5: a publish, delete or update request whose X-MALT-KEY header differs
    from the configured secret is answered with 401 and leaves the table as
    it was, whatever the body, the clock and the state of the storage. *)
Theorem unauthorized_no_change (lower : rune -> rune) (secret : option gostring)
    (r : Request) (db : table) :
  Header_Get (X_MALT_KEY r) <> os_Getenv secret ->
  (forall now fault,
      StatusCode (snd (handlePublish lower secret now fault r db)) = 401
      /\ fst (handlePublish lower secret now fault r db) = db)
  /\ (forall fault,
        StatusCode (snd (handleDeletePost secret fault r db)) = 401
        /\ fst (handleDeletePost secret fault r db) = db)
  /\ (forall fault,
        StatusCode (snd (handleUpdatePost secret fault r db)) = 401
        /\ fst (handleUpdatePost secret fault r db) = db).
Proof.
  intros Hkey.
  unfold handlePublish, handleDeletePost, handleUpdatePost.
  destruct (decide (Header_Get (X_MALT_KEY r) <> os_Getenv secret)) as [_|Hok];
    [|contradiction].
  repeat split.
Qed.

(** C5 at a delete request with a wrong key. *)
Lemma unauthorized_no_change_witness :
  Header_Get (X_MALT_KEY badRequest) <> os_Getenv sampleSecret
  /\ StatusCode (snd (handleDeletePost sampleSecret None badRequest sampleDB)) = 401
  /\ fst (handleDeletePost sampleSecret None badRequest sampleDB) = sampleDB.
Proof.
  assert (Hkey : Header_Get (X_MALT_KEY badRequest) <> os_Getenv sampleSecret).
  { vm_compute. discriminate. }
  split; [exact Hkey|].
  exact (proj1 (proj2 (unauthorized_no_change sampleLowerCase sampleSecret
                         badRequest sampleDB Hkey)) None).
Defined.

(** C6: an authorized update with a well-formed body writes the title,
    description and content of the row that has the slug of the path; when
    no row has it, the answer is 404 (zero rows affected) and the table is
    unchanged, nothing is inserted; a failure of the storage is answered
    with 500 instead, and also leaves the table unchanged. *)
Theorem handleUpdatePost_not_found (secret : option gostring) (r : Request)
    (p : Post) (db : table) :
  Header_Get (X_MALT_KEY r) = os_Getenv secret ->
  Body r = Some p ->
  (db !! PathValue_slug r = None ->
     handleUpdatePost secret None r db = (db, http_Error (runes "Post not found") 404))
  /\ (forall old, db !! PathValue_slug r = Some old ->
        fst (handleUpdatePost secret None r db)
        = <[PathValue_slug r := Row (Title p) (Description p) (Content p) (published_at old)]> db
        /\ StatusCode (snd (handleUpdatePost secret None r db)) = 200)
  /\ (forall err,
        handleUpdatePost secret (Some err) r db
        = (db, http_Error (runes "Database error: " ++ err) 500)).
Proof.
  intros Hauth Hbody.
  split; [|split].
  - intros Hnone. rewrite (authorized_update _ _ _ _ Hauth), Hbody.
    unfold db_Exec, sql_update. now rewrite Hnone.
  - intros old Hold. rewrite (authorized_update _ _ _ _ Hauth), Hbody.
    unfold db_Exec, sql_update. rewrite Hold. simpl. now split.
  - intros err. now rewrite (authorized_update _ _ _ _ Hauth), Hbody.
Qed.

(** C6 at an update of a slug that [sampleDB] does not have. *)
Lemma handleUpdatePost_not_found_witness :
  sampleDB !! PathValue_slug strayRequest = None
  /\ handleUpdatePost sampleSecret None strayRequest sampleDB
     = (sampleDB, http_Error (runes "Post not found") 404).
Proof.
  assert (Hnone : sampleDB !! PathValue_slug strayRequest = None).
  { vm_compute. reflexivity. }
  split; [exact Hnone|].
  exact (proj1 (handleUpdatePost_not_found sampleSecret strayRequest samplePost sampleDB
                  eq_refl eq_refl) Hnone).
Defined.

(** C7: an update that is answered with 200 found a row under the slug of
    the path and changed at most its title, description and content: the row
    keeps its published_at and its key, the table has the same keys, and
    every other row is as it was. *)
Theorem handleUpdatePost_frame (secret : option gostring) (fault : option gostring)
    (r : Request) (db : table) :
  StatusCode (snd (handleUpdatePost secret fault r db)) = 200 ->
  exists p old,
    Body r = Some p
    /\ db !! PathValue_slug r = Some old
    /\ fst (handleUpdatePost secret fault r db) !! PathValue_slug r
       = Some (Row (Title p) (Description p) (Content p) (published_at old))
    /\ dom (fst (handleUpdatePost secret fault r db)) = dom db
    /\ (forall slug, slug <> PathValue_slug r ->
          fst (handleUpdatePost secret fault r db) !! slug = db !! slug).
Proof.
  unfold handleUpdatePost.
  destruct (decide (Header_Get (X_MALT_KEY r) <> os_Getenv secret)) as [|_];
    [discriminate|].
  destruct (Body r) as [p|]; [|discriminate].
  destruct fault as [err|]; [discriminate|].
  unfold db_Exec, sql_update.
  destruct (db !! PathValue_slug r) as [old|] eqn:Hold; [|discriminate].
  simpl. intros _. exists p, old.
  split; [reflexivity|]. split; [reflexivity|]. split; [|split].
  - apply lookup_insert_eq.
  - apply dom_insert_lookup_L. now exists old.
  - intros slug Hne. now apply lookup_insert_ne.
Qed.

(** C7 at an update of the post [hello] of [sampleDB]. *)
Lemma handleUpdatePost_frame_witness :
  StatusCode (snd (handleUpdatePost sampleSecret None goodRequest sampleDB)) = 200
  /\ exists p old,
      Body goodRequest = Some p
      /\ sampleDB !! PathValue_slug goodRequest = Some old
      /\ fst (handleUpdatePost sampleSecret None goodRequest sampleDB) !! PathValue_slug goodRequest
         = Some (Row (Title p) (Description p) (Content p) (published_at old))
      /\ dom (fst (handleUpdatePost sampleSecret None goodRequest sampleDB)) = dom sampleDB
      /\ (forall slug, slug <> PathValue_slug goodRequest ->
            fst (handleUpdatePost sampleSecret None goodRequest sampleDB) !! slug
            = sampleDB !! slug).
Proof.
  assert (Hok : StatusCode (snd (handleUpdatePost sampleSecret None goodRequest sampleDB)) = 200).
  { vm_compute. reflexivity. }
  split; [exact Hok|].
  exact (handleUpdatePost_frame sampleSecret None goodRequest sampleDB Hok).
Defined.

(** An authorized publish of a slug that the table does not have. *)
Lemma handlePublish_insert lower secret now r p db :
  Header_Get (X_MALT_KEY r) = os_Getenv secret ->
  Body r = Some p ->
  db !! resolveSlug lower p = None ->
  fst (handlePublish lower secret now None r db)
  = <[resolveSlug lower p := Row (Title p) (Description p) (Content p) now]> db.
Proof.
  intros Hauth Hbody Hnone.
  rewrite (authorized_publish _ _ _ _ _ _ Hauth), Hbody.
  cbv zeta. unfold db_Exec, sql_upsert. cbn [Slug Title Description Content PublishedAt].
  now rewrite Hnone.
Qed.


(** The rows of the list come in the order of their wall-clock readings. *)
Lemma sql_select_summaries_wallClock (zone : time -> Z) (db : table) :
  StronglySorted (fun a b => wallClock zone (PublishedAt b) <= wallClock zone (PublishedAt a))
    (sql_select_summaries zone db).
Proof.
  unfold sql_select_summaries.
  apply (StronglySorted_fmap _ (newerFirst zone)); [intros x y Hxy; exact Hxy|].
  apply StronglySorted_merge_sort; apply _.
Qed.






(** C4 (what the code does): [GET /api/posts/{slug}] answers a failure of
    the storage with the same 404 and the same text as a slug that no row
    has; when the storage works, the answer is 404 exactly when no row has
    the slug. *)
Theorem handleGetPost_storage_error (err : gostring) (r : Request) (db : table) :
  handleGetPost (Some err) r db = http_Error (runes "Post not found") 404
  /\ handleGetPost None r (delete (PathValue_slug r) db)
     = http_Error (runes "Post not found") 404
  /\ (StatusCode (handleGetPost None r db) = 404 <-> db !! PathValue_slug r = None).
Proof.
  unfold handleGetPost, db_QueryRow_Scan. split; [reflexivity|]. split.
  - now rewrite lookup_delete_eq.
  - destruct (db !! PathValue_slug r); simpl; split; intros H; congruence.
Qed.




(** C10: when MALT_SECRET is unset or empty, a publish, delete or update
    request that has no X-MALT-KEY header, or an empty one, passes the
    comparison of the header with the secret (both read as the empty string)
    and is processed: it is never answered with 401, and when the storage
    works a publish stores the post, a delete removes the row and an update
    rewrites it. *)
Theorem empty_secret_accepts_no_key (lower : rune -> rune) (secret : option gostring)
    (r : Request) (db : table) :
  secret = None \/ secret = Some [] ->
  X_MALT_KEY r = None \/ X_MALT_KEY r = Some [] ->
  (forall now fault, StatusCode (snd (handlePublish lower secret now fault r db)) <> 401)
  /\ (forall fault, StatusCode (snd (handleDeletePost secret fault r db)) <> 401)
  /\ (forall fault, StatusCode (snd (handleUpdatePost secret fault r db)) <> 401)
  /\ (forall now p, Body r = Some p ->
        exists stored,
          fst (handlePublish lower secret now None r db) !! resolveSlug lower p = Some stored
          /\ title stored = Title p
          /\ description stored = Description p
          /\ content stored = Content p)
  /\ fst (handleDeletePost secret None r db) !! PathValue_slug r = None
  /\ (forall p old, Body r = Some p -> db !! PathValue_slug r = Some old ->
        fst (handleUpdatePost secret None r db) !! PathValue_slug r
        = Some (Row (Title p) (Description p) (Content p) (published_at old))).
Proof.
  intros Hsecret Hkey.
  assert (Hauth : Header_Get (X_MALT_KEY r) = os_Getenv secret).
  { destruct Hsecret as [-> | ->], Hkey as [-> | ->]; reflexivity. }
  split; [|split; [|split; [|split; [|split]]]].
  - intros now fault. rewrite (authorized_publish _ _ _ _ _ _ Hauth).
    destruct (Body r) as [p|]; [|discriminate].
    cbv zeta. unfold db_Exec. destruct fault as [err|]; [discriminate|].
    now destruct (sql_upsert _ db).
  - intros fault. rewrite (authorized_delete _ _ _ _ Hauth).
    unfold db_Exec, sql_delete. destruct fault as [err|]; [discriminate|].
    now destruct (db !! PathValue_slug r).
  - intros fault. rewrite (authorized_update _ _ _ _ Hauth).
    destruct (Body r) as [p|]; [|discriminate].
    unfold db_Exec, sql_update. destruct fault as [err|]; [discriminate|].
    now destruct (db !! PathValue_slug r).
  - intros now p Hbody. rewrite (authorized_publish _ _ _ _ _ _ Hauth), Hbody.
    cbv zeta. unfold db_Exec, sql_upsert. cbn [Slug Title Description Content PublishedAt].
    destruct (db !! resolveSlug lower p) as [old|]; simpl;
      rewrite lookup_insert_eq; eexists; repeat split.
  - rewrite (authorized_delete _ _ _ _ Hauth). unfold db_Exec, sql_delete.
    destruct (db !! PathValue_slug r) as [old|] eqn:Hold; simpl; [|assumption].
    apply lookup_delete_eq.
  - intros p old Hbody Hold. rewrite (authorized_update _ _ _ _ Hauth), Hbody.
    unfold db_Exec, sql_update. rewrite Hold. simpl. apply lookup_insert_eq.
Qed.

(** C10 at a delete request without a key, with MALT_SECRET unset. *)
Lemma empty_secret_accepts_no_key_witness :
  StatusCode (snd (handleDeletePost None None bareRequest sampleDB)) <> 401
  /\ sampleDB !! PathValue_slug bareRequest
     = Some (Row (runes "Hello") (runes "first draft") (runes "v1") 10)
  /\ fst (handleDeletePost None None bareRequest sampleDB) !! PathValue_slug bareRequest = None.
Proof.
  pose proof (empty_secret_accepts_no_key sampleLowerCase None bareRequest sampleDB
                (or_introl eq_refl) (or_introl eq_refl)) as H.
  split; [exact (proj1 (proj2 H) None)|].
  split; [vm_compute; reflexivity|].
  exact (proj1 (proj2 (proj2 (proj2 (proj2 H))))).
Defined.

(** * Further properties of the code *)

(** ** Slug generation *)

(** X1: a generated slug is made of the runes [a-z], [0-9] and the hyphen
    only, and is never longer than the title. *)
Theorem SlugNormalizer_url_safe (lower : rune -> rune) (title : gostring) :
  Forall (fun r => rune_of "a" <= r <= rune_of "z"
                   \/ rune_of "0" <= r <= rune_of "9"
                   \/ r = rune_of "-")
         (SlugNormalizer lower title)
  /\ (length (SlugNormalizer lower title) <= length title)%nat.
Proof.
  split.
  - eapply List.Forall_impl; [|apply SlugNormalizer_alphabet].
    intros r [->|[Hr Hsp]]; [now right; right|].
    unfold inSlugAlphabet in Hr. rune_cases.
  - rewrite SlugNormalizer_runes, List.length_map.
    etransitivity; [apply List.filter_length_le|].
    unfold strings_ToLower. now rewrite List.length_map.
Qed.

(** X2: the generated slug is empty exactly when no rune of the lower-cased
    title is in [[a-z0-9 ]]. *)
Theorem SlugNormalizer_empty_iff (lower : rune -> rune) (title : gostring) :
  SlugNormalizer lower title = []
  <-> Forall (fun r => inSlugAlphabet (unicode_ToLower lower r) = false) title.
Proof.
  rewrite SlugNormalizer_runes. unfold strings_ToLower.
  induction title as [|r title IH]; simpl.
  - split; [constructor|reflexivity].
  - destruct (inSlugAlphabet (unicode_ToLower lower r)) eqn:Hr; simpl.
    + split; [discriminate|]. intros H. inversion H; congruence.
    + rewrite IH. split; [now constructor|]. intros H. now inversion H.
Qed.

Lemma SlugNormalizer_cons lower c t :
  SlugNormalizer lower (c :: t) = SlugNormalizer lower [c] ++ SlugNormalizer lower t.
Proof. exact (SlugNormalizer_app lower [c] t). Qed.

(** X3: slugs do not see the case of ASCII letters nor ASCII punctuation: a
    title and the same title with one capital letter lower-cased, or with one
    ASCII rune outside letters, digits and the space removed, get the same
    slug. *)
Theorem SlugNormalizer_insensitive (lower : rune -> rune) (s t : gostring) (c : rune) :
  (rune_of "A" <= c <= rune_of "Z" ->
     SlugNormalizer lower (s ++ c :: t)
     = SlugNormalizer lower (s ++ (c + (rune_of "a" - rune_of "A")) :: t))
  /\ (c <= MaxASCII -> ~ rune_of "A" <= c <= rune_of "Z" -> inSlugAlphabet c = false ->
      SlugNormalizer lower (s ++ c :: t) = SlugNormalizer lower (s ++ t)).
Proof.
  split.
  - intros Hc. rewrite !SlugNormalizer_app, (SlugNormalizer_cons lower c),
      (SlugNormalizer_cons lower (c + _)).
    do 2 f_equal. rewrite !SlugNormalizer_runes. simpl.
    assert (Hlow : unicode_ToLower lower (c + (rune_of "a" - rune_of "A"))
                   = unicode_ToLower lower c).
    { unfold unicode_ToLower, MaxASCII. rune_cases. }
    now rewrite Hlow.
  - intros Hascii Hupper Hout.
    rewrite !SlugNormalizer_app, (SlugNormalizer_cons lower c).
    f_equal. rewrite (SlugNormalizer_runes lower [c]). simpl.
    assert (Hlow : unicode_ToLower lower c = c).
    { unfold unicode_ToLower, MaxASCII in *. rune_cases. }
    now rewrite Hlow, Hout.
Qed.

(** X3 at the titles ["Hello, World"], ["hello, World"] and ["Hello World"]. *)
Lemma SlugNormalizer_insensitive_witness :
  SlugNormalizer sampleLowerCase (runes "Hello, World")
  = SlugNormalizer sampleLowerCase (runes "hello, World")
  /\ SlugNormalizer sampleLowerCase (runes "Hello, World")
     = SlugNormalizer sampleLowerCase (runes "Hello World").
Proof.
  split.
  - apply (proj1 (SlugNormalizer_insensitive sampleLowerCase [] (runes "ello, World")
                    (rune_of "H"))).
    vm_compute. split; discriminate.
  - apply (proj2 (SlugNormalizer_insensitive sampleLowerCase (runes "Hello") (runes " World")
                    (rune_of ","))).
    + vm_compute. discriminate.
    + vm_compute. intros [H _]. now apply H.
    + reflexivity.
Defined.

(** X4: the older slug generation keeps the length of the title, and on a
    title of ASCII runes it is idempotent: hyphens and punctuation stay. *)
Theorem SlugNormalizer_old_idempotent (lower : rune -> rune) (title : gostring) :
  length (SlugNormalizer_old lower title) = length title
  /\ (Forall (fun r => r <= MaxASCII) title ->
      SlugNormalizer_old lower (SlugNormalizer_old lower title)
      = SlugNormalizer_old lower title).
Proof.
  unfold SlugNormalizer_old. simpl runes.
  rewrite !strings_ReplaceAll_rune. unfold strings_ToLower.
  split; [now rewrite !List.length_map|].
  intros Hascii. rewrite !List.map_map.
  apply List.map_ext_in. intros r Hr.
  rewrite List.Forall_forall in Hascii. specialize (Hascii r Hr).
  unfold unicode_ToLower, MaxASCII in *. rune_cases.
Qed.

(** X4 at the title ["Hello, World!"]. *)
Lemma SlugNormalizer_old_idempotent_witness :
  SlugNormalizer_old sampleLowerCase (runes "Hello, World!") = runes "hello,-world!"
  /\ SlugNormalizer_old sampleLowerCase (SlugNormalizer_old sampleLowerCase (runes "Hello, World!"))
     = SlugNormalizer_old sampleLowerCase (runes "Hello, World!").
Proof.
  split; [reflexivity|].
  apply (proj2 (SlugNormalizer_old_idempotent sampleLowerCase (runes "Hello, World!"))).
  repeat constructor; vm_compute; discriminate.
Defined.

(** ** The handlers that write *)

(** Each handler either answers with an error and leaves the table, or ran
    its statement and answers 200. *)
Lemma handlePublish_cases lower secret now fault r db :
  (StatusCode (snd (handlePublish lower secret now fault r db)) <> 200
   /\ fst (handlePublish lower secret now fault r db) = db)
  \/ (exists p,
        Header_Get (X_MALT_KEY r) = os_Getenv secret
        /\ Body r = Some p /\ fault = None
        /\ handlePublish lower secret now fault r db
           = (fst (sql_upsert (mkPost (resolveSlug lower p) (Title p) (Description p)
                                 (Content p) now) db),
              jsonResponse (JSONMap [ (runes "status", runes "published");
                                      (runes "link", runes "/post/" ++ resolveSlug lower p) ]))).
Proof.
  unfold handlePublish.
  destruct (decide (Header_Get (X_MALT_KEY r) <> os_Getenv secret)) as [|Hauth];
    [left; now split|].
  apply dec_stable in Hauth.
  destruct (Body r) as [p|]; [|left; now split].
  cbv zeta. unfold db_Exec.
  destruct fault as [err|]; [left; now split|].
  right. exists p. repeat (split; [reflexivity || assumption|]).
  now destruct (sql_upsert _ db).
Qed.

Lemma handleUpdatePost_cases secret fault r db :
  (StatusCode (snd (handleUpdatePost secret fault r db)) <> 200
   /\ fst (handleUpdatePost secret fault r db) = db)
  \/ (exists p old,
        Header_Get (X_MALT_KEY r) = os_Getenv secret
        /\ Body r = Some p /\ fault = None
        /\ db !! PathValue_slug r = Some old
        /\ handleUpdatePost secret fault r db
           = (<[PathValue_slug r :=
                  Row (Title p) (Description p) (Content p) (published_at old)]> db,
              jsonResponse (JSONMap [ (runes "status", runes "updated");
                                      (runes "slug", PathValue_slug r) ]))).
Proof.
  unfold handleUpdatePost.
  destruct (decide (Header_Get (X_MALT_KEY r) <> os_Getenv secret)) as [|Hauth];
    [left; now split|].
  apply dec_stable in Hauth.
  destruct (Body r) as [p|]; [|left; now split].
  unfold db_Exec, sql_update.
  destruct fault as [err|]; [left; now split|].
  destruct (db !! PathValue_slug r) as [old|] eqn:Hold; [|left; now split].
  right. exists p, old. now repeat split.
Qed.

Lemma handleDeletePost_cases secret fault r db :
  (StatusCode (snd (handleDeletePost secret fault r db)) <> 200
   /\ fst (handleDeletePost secret fault r db) = db)
  \/ (exists old,
        Header_Get (X_MALT_KEY r) = os_Getenv secret
        /\ fault = None
        /\ db !! PathValue_slug r = Some old
        /\ handleDeletePost secret fault r db
           = (delete (PathValue_slug r) db,
              jsonResponse (JSONMap [ (runes "status", runes "deleted");
                                      (runes "slug", PathValue_slug r) ]))).
Proof.
  unfold handleDeletePost.
  destruct (decide (Header_Get (X_MALT_KEY r) <> os_Getenv secret)) as [|Hauth];
    [left; now split|].
  apply dec_stable in Hauth.
  unfold db_Exec, sql_delete.
  destruct fault as [err|]; [left; now split|].
  destruct (db !! PathValue_slug r) as [old|] eqn:Hold; [|left; now split].
  right. exists old. now repeat split.
Qed.

(** X5: each of the three handlers that write answers 401 exactly when the
    X-MALT-KEY header differs from the secret, whatever the body, the path
    and the state of the storage. *)
Theorem status_401_iff (lower : rune -> rune) (secret : option gostring)
    (r : Request) (db : table) :
  (forall now fault,
      StatusCode (snd (handlePublish lower secret now fault r db)) = 401
      <-> Header_Get (X_MALT_KEY r) <> os_Getenv secret)
  /\ (forall fault,
        StatusCode (snd (handleDeletePost secret fault r db)) = 401
        <-> Header_Get (X_MALT_KEY r) <> os_Getenv secret)
  /\ (forall fault,
        StatusCode (snd (handleUpdatePost secret fault r db)) = 401
        <-> Header_Get (X_MALT_KEY r) <> os_Getenv secret).
Proof.
  split; [|split].
  - intros now fault. unfold handlePublish.
    destruct (decide (Header_Get (X_MALT_KEY r) <> os_Getenv secret)) as [Hne|Heq];
      [now split|].
    split; [|contradiction]. intros H. exfalso. revert H.
    destruct (Body r) as [p|]; [|discriminate].
    cbv zeta. unfold db_Exec. destruct fault; [discriminate|].
    now destruct (sql_upsert _ db).
  - intros fault. unfold handleDeletePost.
    destruct (decide (Header_Get (X_MALT_KEY r) <> os_Getenv secret)) as [Hne|Heq];
      [now split|].
    split; [|contradiction]. intros H. exfalso. revert H.
    unfold db_Exec, sql_delete. destruct fault; [discriminate|].
    now destruct (db !! PathValue_slug r).
  - intros fault. unfold handleUpdatePost.
    destruct (decide (Header_Get (X_MALT_KEY r) <> os_Getenv secret)) as [Hne|Heq];
      [now split|].
    split; [|contradiction]. intros H. exfalso. revert H.
    destruct (Body r) as [p|]; [|discriminate].
    unfold db_Exec, sql_update. destruct fault; [discriminate|].
    now destruct (db !! PathValue_slug r).
Qed.

(** X6: a write that is not answered with 200 (401, 400, 404 or 500) leaves
    the table exactly as it was. *)
Theorem failed_write_changes_nothing (lower : rune -> rune) (secret : option gostring)
    (r : Request) (db : table) :
  (forall now fault,
      StatusCode (snd (handlePublish lower secret now fault r db)) <> 200 ->
      fst (handlePublish lower secret now fault r db) = db)
  /\ (forall fault,
        StatusCode (snd (handleDeletePost secret fault r db)) <> 200 ->
        fst (handleDeletePost secret fault r db) = db)
  /\ (forall fault,
        StatusCode (snd (handleUpdatePost secret fault r db)) <> 200 ->
        fst (handleUpdatePost secret fault r db) = db).
Proof.
  split; [|split].
  - intros now fault Hst.
    destruct (handlePublish_cases lower secret now fault r db)
      as [[_ Hdb]|(p & _ & _ & _ & Heq)]; [exact Hdb|].
    rewrite Heq in Hst. now contradiction Hst.
  - intros fault Hst.
    destruct (handleDeletePost_cases secret fault r db)
      as [[_ Hdb]|(old & _ & _ & _ & Heq)]; [exact Hdb|].
    rewrite Heq in Hst. now contradiction Hst.
  - intros fault Hst.
    destruct (handleUpdatePost_cases secret fault r db)
      as [[_ Hdb]|(p & old & _ & _ & _ & _ & Heq)]; [exact Hdb|].
    rewrite Heq in Hst. now contradiction Hst.
Qed.

(** X6 at a publish that the storage refuses. *)
Lemma failed_write_changes_nothing_witness :
  StatusCode (snd (handlePublish sampleLowerCase sampleSecret 20 (Some (runes "disk full"))
                     goodRequest sampleDB)) = 500
  /\ fst (handlePublish sampleLowerCase sampleSecret 20 (Some (runes "disk full"))
            goodRequest sampleDB) = sampleDB.
Proof.
  split; [reflexivity|].
  apply (proj1 (failed_write_changes_nothing sampleLowerCase sampleSecret goodRequest sampleDB)).
  vm_compute. discriminate.
Defined.

(** X7: an update never adds or removes a key; a publish never removes a
    key and adds at most one row; a delete never adds a key and removes no
    key but the slug of its path. *)
Theorem writes_and_keys (lower : rune -> rune) (secret : option gostring)
    (r : Request) (db : table) :
  (forall fault, dom (fst (handleUpdatePost secret fault r db)) = dom db)
  /\ (forall now fault,
        dom db ⊆ dom (fst (handlePublish lower secret now fault r db))
        /\ (size (fst (handlePublish lower secret now fault r db)) <= S (size db))%nat)
  /\ (forall fault,
        dom (fst (handleDeletePost secret fault r db)) ⊆ dom db
        /\ dom db ∖ {[ PathValue_slug r ]} ⊆ dom (fst (handleDeletePost secret fault r db))).
Proof.
  split; [|split].
  - intros fault.
    destruct (handleUpdatePost_cases secret fault r db)
      as [[_ ->]|(p & old & _ & _ & _ & Hold & ->)]; [reflexivity|].
    simpl. apply dom_insert_lookup_L. now exists old.
  - intros now fault.
    destruct (handlePublish_cases lower secret now fault r db)
      as [[_ ->]|(p & _ & _ & _ & ->)]; [split; [reflexivity|lia]|].
    simpl. unfold sql_upsert. cbn [Slug Title Description Content PublishedAt].
    destruct (db !! resolveSlug lower p) as [old|] eqn:Hold; simpl.
    + split; [apply dom_insert_subseteq|].
      rewrite map_size_insert_Some by (now exists old). lia.
    + split; [apply dom_insert_subseteq|].
      rewrite map_size_insert_None by assumption. lia.
  - intros fault.
    destruct (handleDeletePost_cases secret fault r db)
      as [[_ ->]|(old & _ & _ & _ & ->)].
    + split; [reflexivity|]. now apply subseteq_difference_l.
    + simpl. rewrite dom_delete_L. split; [|reflexivity].
      now apply subseteq_difference_l.
Qed.

(** X8: an authorized delete of a slug that the table has, with a working
    storage, is answered with 200 and removes that row and no other; a GET
    of the slug is then answered with 404. *)
Theorem handleDeletePost_removes (secret : option gostring) (r : Request)
    (db : table) (old : row) :
  Header_Get (X_MALT_KEY r) = os_Getenv secret ->
  db !! PathValue_slug r = Some old ->
  StatusCode (snd (handleDeletePost secret None r db)) = 200
  /\ fst (handleDeletePost secret None r db) !! PathValue_slug r = None
  /\ size db = S (size (fst (handleDeletePost secret None r db)))
  /\ (forall slug, slug <> PathValue_slug r ->
        fst (handleDeletePost secret None r db) !! slug = db !! slug)
  /\ (forall g, PathValue_slug g = PathValue_slug r ->
        handleGetPost None g (fst (handleDeletePost secret None r db))
        = http_Error (runes "Post not found") 404).
Proof.
  intros Hauth Hold. rewrite (authorized_delete _ _ _ _ Hauth).
  unfold db_Exec, sql_delete. rewrite Hold. simpl.
  split; [reflexivity|]. split; [apply lookup_delete_eq|]. split; [|split].
  - rewrite map_size_delete_Some by (now exists old).
    assert (size db <> 0%nat) by (intros H0; apply map_size_empty_inv in H0; now subst).
    lia.
  - intros slug Hne. now apply lookup_delete_ne.
  - intros g Hg. unfold handleGetPost, db_QueryRow_Scan.
    now rewrite Hg, lookup_delete_eq.
Qed.

(** X8 at a delete of the post [hello] of [sampleDB]. *)
Lemma handleDeletePost_removes_witness :
  StatusCode (snd (handleDeletePost sampleSecret None goodRequest sampleDB)) = 200
  /\ handleGetPost None (getRequest (runes "hello"))
       (fst (handleDeletePost sampleSecret None goodRequest sampleDB))
     = http_Error (runes "Post not found") 404.
Proof.
  pose proof (handleDeletePost_removes sampleSecret goodRequest sampleDB
                (Row (runes "Hello") (runes "first draft") (runes "v1") 10)
                eq_refl eq_refl) as H.
  split; [exact (proj1 H)|].
  exact (proj2 (proj2 (proj2 (proj2 H))) (getRequest (runes "hello")) eq_refl).
Defined.

(** X9: an authorized delete of a slug that the table does not have is
    answered with 404 and changes nothing; so the second of two deletes of a
    slug is answered with 404.  A delete that the storage refuses is answered
    with 500 and the text of the error. *)
Theorem handleDeletePost_absent (secret : option gostring) (r : Request) (db : table) :
  Header_Get (X_MALT_KEY r) = os_Getenv secret ->
  (db !! PathValue_slug r = None ->
     handleDeletePost secret None r db = (db, http_Error (runes "Post not found") 404))
  /\ StatusCode (snd (handleDeletePost secret None r
                        (fst (handleDeletePost secret None r db)))) = 404
  /\ (forall err,
        handleDeletePost secret (Some err) r db
        = (db, http_Error (runes "Database error: " ++ err) 500)).
Proof.
  intros Hauth.
  assert (Habsent : forall db' : table, db' !! PathValue_slug r = None ->
            handleDeletePost secret None r db' = (db', http_Error (runes "Post not found") 404)).
  { intros db' Hnone. rewrite (authorized_delete _ _ _ _ Hauth).
    unfold db_Exec, sql_delete. now rewrite Hnone. }
  split; [apply Habsent|]. split.
  - rewrite Habsent; [reflexivity|].
    rewrite (authorized_delete _ _ _ _ Hauth). unfold db_Exec, sql_delete.
    destruct (db !! PathValue_slug r) as [old|] eqn:Hold; simpl; [|assumption].
    apply lookup_delete_eq.
  - intros err. now rewrite (authorized_delete _ _ _ _ Hauth).
Qed.

(** X9 at a delete of a slug that [sampleDB] does not have. *)
Lemma handleDeletePost_absent_witness :
  sampleDB !! PathValue_slug strayRequest = None
  /\ handleDeletePost sampleSecret None strayRequest sampleDB
     = (sampleDB, http_Error (runes "Post not found") 404).
Proof.
  assert (Hnone : sampleDB !! PathValue_slug strayRequest = None) by (vm_compute; reflexivity).
  split; [exact Hnone|].
  exact (proj1 (handleDeletePost_absent sampleSecret strayRequest sampleDB eq_refl) Hnone).
Defined.

(** X10: after an authorized publish with a working storage, the link of
    the response is [/post/] followed by the slug, and a GET of that slug is
    answered with the post: the slug, the title, description and content of
    the request, and the instant of the first publish of the slug. *)
Theorem handlePublish_then_get (lower : rune -> rune) (secret : option gostring)
    (now : time) (r g : Request) (p : Post) (db : table) :
  Header_Get (X_MALT_KEY r) = os_Getenv secret ->
  Body r = Some p ->
  PathValue_slug g = resolveSlug lower p ->
  snd (handlePublish lower secret now None r db)
  = jsonResponse (JSONMap [ (runes "status", runes "published");
                            (runes "link", runes "/post/" ++ resolveSlug lower p) ])
  /\ handleGetPost None g (fst (handlePublish lower secret now None r db))
     = jsonResponse
         (JSONPost (mkPost (resolveSlug lower p) (Title p) (Description p) (Content p)
                      (match db !! resolveSlug lower p with
                       | Some old => published_at old
                       | None => now
                       end))).
Proof.
  intros Hauth Hbody Hg.
  rewrite (authorized_publish _ _ _ _ _ _ Hauth), Hbody.
  cbv zeta. unfold db_Exec, sql_upsert. cbn [Slug Title Description Content PublishedAt].
  unfold handleGetPost, db_QueryRow_Scan. rewrite Hg.
  destruct (db !! resolveSlug lower p) as [old|]; simpl;
    now rewrite lookup_insert_eq.
Qed.

(** X10 at the post [postB], whose slug is generated from its title. *)
Lemma handlePublish_then_get_witness :
  handleGetPost None (getRequest (runes "second-post"))
    (fst (handlePublish sampleLowerCase sampleSecret 20 None (publishRequest postB) sampleDB))
  = jsonResponse
      (JSONPost (mkPost (runes "second-post") (runes "Second Post!") (runes "b") (runes "bb") 20)).
Proof.
  exact (proj2 (handlePublish_then_get sampleLowerCase sampleSecret 20 (publishRequest postB)
                  (getRequest (runes "second-post")) postB sampleDB
                  eq_refl eq_refl eq_refl)).
Defined.

(** X11: after an authorized update of a slug that the table has, a GET of
    the slug is answered with the title, description and content of the
    update and the published_at the row had. *)
Theorem handleUpdatePost_then_get (secret : option gostring) (r g : Request)
    (p : Post) (old : row) (db : table) :
  Header_Get (X_MALT_KEY r) = os_Getenv secret ->
  Body r = Some p ->
  db !! PathValue_slug r = Some old ->
  PathValue_slug g = PathValue_slug r ->
  handleGetPost None g (fst (handleUpdatePost secret None r db))
  = jsonResponse
      (JSONPost (mkPost (PathValue_slug r) (Title p) (Description p) (Content p)
                   (published_at old))).
Proof.
  intros Hauth Hbody Hold Hg.
  rewrite (authorized_update _ _ _ _ Hauth), Hbody.
  unfold db_Exec, sql_update. rewrite Hold. simpl.
  unfold handleGetPost, db_QueryRow_Scan. now rewrite Hg, lookup_insert_eq.
Qed.

(** X11 at an update of the post [hello] of [sampleDB]. *)
Lemma handleUpdatePost_then_get_witness :
  handleGetPost None (getRequest (runes "hello"))
    (fst (handleUpdatePost sampleSecret None goodRequest sampleDB))
  = jsonResponse
      (JSONPost (mkPost (runes "hello") (runes "Hello again") (runes "second draft")
                   (runes "v2") 10)).
Proof.
  exact (handleUpdatePost_then_get sampleSecret goodRequest (getRequest (runes "hello"))
           samplePost (Row (runes "Hello") (runes "first draft") (runes "v1") 10) sampleDB
           eq_refl eq_refl eq_refl eq_refl).
Defined.

(** X12: sending a write a second time, whatever the clock shows then,
    leaves the table as the first one left it: a publish does not move
    published_at, an update writes the same fields, a delete finds nothing. *)
Theorem repeated_write (lower : rune -> rune) (secret : option gostring)
    (fault : option gostring) (r : Request) (db : table) :
  (forall now1 now2,
      fst (handlePublish lower secret now2 fault r
             (fst (handlePublish lower secret now1 fault r db)))
      = fst (handlePublish lower secret now1 fault r db))
  /\ fst (handleUpdatePost secret fault r (fst (handleUpdatePost secret fault r db)))
     = fst (handleUpdatePost secret fault r db)
  /\ fst (handleDeletePost secret fault r (fst (handleDeletePost secret fault r db)))
     = fst (handleDeletePost secret fault r db).
Proof.
  split; [|split].
  - intros now1 now2. unfold handlePublish.
    destruct (decide (Header_Get (X_MALT_KEY r) <> os_Getenv secret)); [reflexivity|].
    destruct (Body r) as [p|]; [|reflexivity].
    cbv zeta. unfold db_Exec. destruct fault; [reflexivity|].
    unfold sql_upsert. cbn [Slug Title Description Content PublishedAt].
    destruct (db !! resolveSlug lower p) as [old|]; simpl;
      rewrite lookup_insert_eq; simpl; apply insert_insert_eq.
  - unfold handleUpdatePost.
    destruct (decide (Header_Get (X_MALT_KEY r) <> os_Getenv secret)); [reflexivity|].
    destruct (Body r) as [p|]; [|reflexivity].
    unfold db_Exec. destruct fault; [reflexivity|].
    unfold sql_update.
    destruct (db !! PathValue_slug r) as [old|] eqn:Hold; simpl.
    + rewrite lookup_insert_eq. simpl. apply insert_insert_eq.
    + now rewrite Hold.
  - unfold handleDeletePost.
    destruct (decide (Header_Get (X_MALT_KEY r) <> os_Getenv secret)); [reflexivity|].
    unfold db_Exec. destruct fault; [reflexivity|].
    unfold sql_delete.
    destruct (db !! PathValue_slug r) as [old|] eqn:Hold; simpl.
    + now rewrite lookup_delete_eq.
    + now rewrite Hold.
Qed.

(** X13: publishing a post under a slug that the table does not have and
    then deleting that slug gives back the table as it was. *)
Theorem handlePublish_then_delete (lower : rune -> rune) (secret : option gostring)
    (now : time) (r d : Request) (p : Post) (db : table) :
  Header_Get (X_MALT_KEY r) = os_Getenv secret ->
  Header_Get (X_MALT_KEY d) = os_Getenv secret ->
  Body r = Some p ->
  db !! resolveSlug lower p = None ->
  PathValue_slug d = resolveSlug lower p ->
  StatusCode (snd (handleDeletePost secret None d
                     (fst (handlePublish lower secret now None r db)))) = 200
  /\ fst (handleDeletePost secret None d (fst (handlePublish lower secret now None r db))) = db.
Proof.
  intros Hr Hd Hbody Hnone Hslug.
  rewrite (handlePublish_insert lower secret now r p db Hr Hbody Hnone).
  rewrite (authorized_delete _ _ _ _ Hd). unfold db_Exec, sql_delete.
  rewrite Hslug, lookup_insert_eq. simpl.
  split; [reflexivity|]. now apply delete_insert_id.
Qed.

(** X13 at the post [postA], published into [sampleDB] and deleted again. *)
Lemma handlePublish_then_delete_witness :
  sampleDB !! resolveSlug sampleLowerCase postA = None
  /\ fst (handleDeletePost sampleSecret None
            (mkRequest (Some (runes "s3cret")) (runes "first") None)
            (fst (handlePublish sampleLowerCase sampleSecret 20 None
                    (publishRequest postA) sampleDB)))
     = sampleDB.
Proof.
  assert (Hnone : sampleDB !! resolveSlug sampleLowerCase postA = None)
    by (vm_compute; reflexivity).
  split; [exact Hnone|].
  exact (proj2 (handlePublish_then_delete sampleLowerCase sampleSecret 20
                  (publishRequest postA)
                  (mkRequest (Some (runes "s3cret")) (runes "first") None)
                  postA sampleDB eq_refl eq_refl eq_refl Hnone eq_refl)).
Defined.

(** X15: when two posts have the same slug, given or generated, and the
    table does not have it, publishing one and then the other leaves one row
    for both: the title, description and content of the second with the
    instant of the first. *)
Theorem same_slug_overwrites (lower : rune -> rune) (secret : option gostring)
    (tA tB : time) (rA rB : Request) (pA pB : Post) (db : table) :
  Header_Get (X_MALT_KEY rA) = os_Getenv secret ->
  Header_Get (X_MALT_KEY rB) = os_Getenv secret ->
  Body rA = Some pA -> Body rB = Some pB ->
  resolveSlug lower pA = resolveSlug lower pB ->
  db !! resolveSlug lower pA = None ->
  fst (handlePublish lower secret tB None rB (fst (handlePublish lower secret tA None rA db)))
  = <[resolveSlug lower pA := Row (Title pB) (Description pB) (Content pB) tA]> db
  /\ size (fst (handlePublish lower secret tB None rB
                  (fst (handlePublish lower secret tA None rA db))))
     = S (size db).
Proof.
  intros HkA HkB HbA HbB Hsame Hnone.
  rewrite (handlePublish_insert lower secret tA rA pA db HkA HbA Hnone).
  rewrite (authorized_publish _ _ _ _ _ _ HkB), HbB.
  cbv zeta. unfold db_Exec, sql_upsert. cbn [Slug Title Description Content PublishedAt].
  rewrite <- Hsame, lookup_insert_eq. simpl.
  rewrite insert_insert_eq. split; [reflexivity|].
  now apply map_size_insert_None.
Qed.

(** X15 at the titles ["Hello World"] and ["hello, world!"], which both
    give the slug ["hello-world"]. *)
Lemma same_slug_overwrites_witness :
  resolveSlug sampleLowerCase helloPost1 = runes "hello-world"
  /\ resolveSlug sampleLowerCase helloPost2 = runes "hello-world"
  /\ fst (handlePublish sampleLowerCase sampleSecret 30 None (publishRequest helloPost2)
            (fst (handlePublish sampleLowerCase sampleSecret 20 None
                    (publishRequest helloPost1) sampleDB)))
     = <[runes "hello-world" := Row (runes "hello, world!") (runes "h2") (runes "two") 20]>
         sampleDB.
Proof.
  split; [reflexivity|]. split; [reflexivity|].
  refine (proj1 (same_slug_overwrites sampleLowerCase sampleSecret 20 30
                   (publishRequest helloPost1) (publishRequest helloPost2)
                   helloPost1 helloPost2 sampleDB eq_refl eq_refl eq_refl eq_refl _ _));
    vm_compute; reflexivity.
Defined.

(** X16: a post without a slug whose title has no rune that lower-cases
    into [[a-z0-9 ]] (the empty title for one) is stored under the empty
    slug, and the link of the response is [/post/]. *)
Theorem handlePublish_empty_slug (lower : rune -> rune) (secret : option gostring)
    (now : time) (r : Request) (p : Post) (db : table) :
  Header_Get (X_MALT_KEY r) = os_Getenv secret ->
  Body r = Some p ->
  Slug p = [] ->
  Forall (fun c => inSlugAlphabet (unicode_ToLower lower c) = false) (Title p) ->
  snd (handlePublish lower secret now None r db)
  = jsonResponse (JSONMap [ (runes "status", runes "published");
                            (runes "link", runes "/post/") ])
  /\ exists t,
      fst (handlePublish lower secret now None r db) !! []
      = Some (Row (Title p) (Description p) (Content p) t).
Proof.
  intros Hauth Hbody Hslug Htitle.
  assert (Hempty : resolveSlug lower p = []).
  { unfold resolveSlug. rewrite Hslug. simpl.
    rewrite SlugNormalizer_runes. unfold strings_ToLower.
    induction Htitle as [|c title Hc _ IH]; simpl; [reflexivity|].
    now rewrite Hc. }
  rewrite (authorized_publish _ _ _ _ _ _ Hauth), Hbody.
  cbv zeta. unfold db_Exec, sql_upsert. cbn [Slug Title Description Content PublishedAt].
  rewrite Hempty.
  destruct (db !! []) as [old|]; simpl; (split; [reflexivity|]);
    eexists; apply lookup_insert_eq.
Qed.

(** X16 at the title ["?!"]. *)
Lemma handlePublish_empty_slug_witness :
  snd (handlePublish sampleLowerCase sampleSecret 20 None (publishRequest punctPost) sampleDB)
  = jsonResponse (JSONMap [ (runes "status", runes "published");
                            (runes "link", runes "/post/") ]).
Proof.
  refine (proj1 (handlePublish_empty_slug sampleLowerCase sampleSecret 20
                   (publishRequest punctPost) punctPost sampleDB
                   eq_refl eq_refl eq_refl _)).
  repeat constructor.
Defined.

(** ** Histories of writes *)

(** One write keeps the published_at of a row that it does not delete. *)
Lemma serveWrite_published_at (lower : rune -> rune) (secret : option gostring)
    (w : write) (db : table) (slug : gostring) (old : row) :
  db !! slug = Some old ->
  keepsSlug slug w ->
  exists stored,
    fst (serveWrite lower secret w db) !! slug = Some stored
    /\ published_at stored = published_at old.
Proof.
  intros Hold Hkeep. destruct w as [now fault r|fault r|fault r]; simpl in *.
  - destruct (handlePublish_cases lower secret now fault r db)
      as [[_ ->]|(p & _ & _ & _ & ->)]; [now exists old|].
    simpl. unfold sql_upsert. cbn [Slug Title Description Content PublishedAt].
    destruct (decide (resolveSlug lower p = slug)) as [->|Hne].
    + rewrite Hold. simpl. rewrite lookup_insert_eq. now eexists.
    + destruct (db !! resolveSlug lower p); simpl;
        rewrite lookup_insert_ne by assumption; now exists old.
  - destruct (handleDeletePost_cases secret fault r db)
      as [[_ ->]|(gone & _ & _ & _ & ->)]; [now exists old|].
    simpl. rewrite lookup_delete_ne by assumption. now exists old.
  - destruct (handleUpdatePost_cases secret fault r db)
      as [[_ ->]|(p & old' & _ & _ & _ & Hold' & ->)]; [now exists old|].
    simpl. destruct (decide (PathValue_slug r = slug)) as [Heq|Hne].
    + rewrite Heq in *. rewrite lookup_insert_eq.
      eexists. split; [reflexivity|]. simpl. congruence.
    + rewrite lookup_insert_ne by assumption. now exists old.
Qed.

(** X17: through any history of publish, update and delete requests,
    authorized or not, served or refused by the storage, a row keeps its
    published_at as long as no delete of the history names its slug. *)
Theorem published_at_stable (lower : rune -> rune) (secret : option gostring)
    (ws : list write) (db : table) (slug : gostring) (old : row) :
  db !! slug = Some old ->
  Forall (keepsSlug slug) ws ->
  exists stored,
    serveWrites lower secret ws db !! slug = Some stored
    /\ published_at stored = published_at old.
Proof.
  intros Hold Hkeep. revert db old Hold.
  induction Hkeep as [|w ws Hw _ IH]; intros db old Hold; simpl.
  - now exists old.
  - destruct (serveWrite_published_at lower secret w db slug old Hold Hw)
      as (mid & Hmid & Hpa).
    destruct (IH _ _ Hmid) as (stored & Hstored & Hpa').
    exists stored. split; [assumption|congruence].
Qed.

(** X17 at an update, a second publish and a delete of another slug. *)
Lemma published_at_stable_witness :
  exists stored,
    serveWrites sampleLowerCase sampleSecret
      [ PUT_post None goodRequest; POST_publish 20 None goodRequest;
        DELETE_post None strayRequest ] sampleDB !! runes "hello" = Some stored
    /\ published_at stored = 10.
Proof.
  refine (published_at_stable sampleLowerCase sampleSecret
            [ PUT_post None goodRequest; POST_publish 20 None goodRequest;
              DELETE_post None strayRequest ]
            sampleDB (runes "hello")
            (Row (runes "Hello") (runes "first draft") (runes "v1") 10) eq_refl _).
  repeat constructor. vm_compute. discriminate.
Defined.

(** ** The list *)

Lemma sql_select_summaries_slugs (zone : time -> Z) (db : table) :
  Permutation (Slug <$> sql_select_summaries zone db) (fst <$> map_to_list db).
Proof.
  unfold sql_select_summaries. rewrite <- list_fmap_compose.
  rewrite (merge_sort_Permutation (newerFirst zone) (map_to_list db)).
  reflexivity.
Qed.

(** X18: [GET /api/posts] lists every slug of the table once and no other
    slug; when the storage refuses the query the answer is 500 with a fixed
    text, without the text of the error. *)
Theorem handleListPosts_slugs (zone : time -> Z) (db : table) :
  (exists posts,
      handleListPosts zone None db = jsonResponse (JSONPosts posts)
      /\ NoDup (Slug <$> posts)
      /\ length posts = size db
      /\ (forall slug, slug ∈ (Slug <$> posts) <-> is_Some (db !! slug)))
  /\ (forall err,
        handleListPosts zone (Some err) db = http_Error (runes "Database error") 500).
Proof.
  split; [|reflexivity].
  exists (sql_select_summaries zone db). split; [reflexivity|].
  pose proof (sql_select_summaries_slugs zone db) as Hperm.
  split; [|split].
  - rewrite Hperm. apply NoDup_fst_map_to_list.
  - rewrite <- (length_fmap Slug), Hperm, length_fmap. apply length_map_to_list.
  - intros slug. rewrite Hperm, list_elem_of_fmap. split.
    + intros ([k v] & -> & Hin). apply elem_of_map_to_list in Hin. now exists v.
    + intros [v Hv]. exists (slug, v). split; [reflexivity|].
      now apply elem_of_map_to_list.
Qed.

(** X19: a post published under a slug that the table does not have, when
    the wall clock of the server shows a later reading than at the
    published_at of every row, is the first entry of the list; so is a post
    published at a later instant than every row under one zone offset. *)
Theorem handlePublish_heads_list (lower : rune -> rune) (zone : time -> Z)
    (secret : option gostring) (now : time) (r : Request) (p : Post) (db : table) :
  Header_Get (X_MALT_KEY r) = os_Getenv secret ->
  Body r = Some p ->
  db !! resolveSlug lower p = None ->
  (forall slug stored, db !! slug = Some stored ->
     wallClock zone (published_at stored) < wallClock zone now
     \/ (zone (published_at stored) = zone now /\ published_at stored < now)) ->
  exists rest,
    handleListPosts zone None (fst (handlePublish lower secret now None r db))
    = jsonResponse (JSONPosts (summaryOf lower p now :: rest)).
Proof.
  intros Hauth Hbody Hnone Hlater.
  assert (Hwall : forall slug stored, db !! slug = Some stored ->
                    wallClock zone (published_at stored) < wallClock zone now).
  { intros slug stored Hin. destruct (Hlater slug stored Hin) as [H|[Hz Ht]];
      [exact H|]. unfold wallClock. rewrite Hz. lia. }
  clear Hlater.
  rewrite (handlePublish_insert lower secret now r p db Hauth Hbody Hnone).
  unfold handleListPosts, db_Query, sql_select_summaries.
  set (new := (resolveSlug lower p, Row (Title p) (Description p) (Content p) now)).
  set (db' := <[resolveSlug lower p := Row (Title p) (Description p) (Content p) now]> db).
  assert (Hperm : merge_sort (newerFirst zone) (map_to_list db') ≡ₚ new :: map_to_list db).
  { rewrite merge_sort_Permutation. now apply map_to_list_insert. }
  assert (Hsorted : StronglySorted (newerFirst zone)
                      (merge_sort (newerFirst zone) (map_to_list db'))).
  { apply StronglySorted_merge_sort; apply _. }
  destruct (merge_sort (newerFirst zone) (map_to_list db')) as [|x l].
  { apply Permutation_nil_cons in Hperm. contradiction. }
  assert (Hx : x = new).
  { assert (Hin : x ∈ new :: map_to_list db) by (rewrite <- Hperm; left).
    apply elem_of_cons in Hin. destruct Hin as [Heq|Hin]; [assumption|exfalso].
    destruct x as [k v]. apply elem_of_map_to_list in Hin.
    specialize (Hwall k v Hin).
    assert (Hnew : new ∈ (k, v) :: l) by (rewrite Hperm; left).
    apply elem_of_cons in Hnew. destruct Hnew as [Heq|Hnew].
    - unfold new in Heq. injection Heq as _ Hv. subst v. simpl in Hwall. lia.
    - apply StronglySorted_inv in Hsorted. destruct Hsorted as [_ Hall].
      rewrite List.Forall_forall in Hall.
      apply list_elem_of_In in Hnew. specialize (Hall new Hnew).
      unfold newerFirst, new in Hall. simpl in Hall. lia. }
  subst x. exists (scanSummary <$> l). reflexivity.
Qed.

(** X19 at the post [postA], published into [sampleDB] at the instant 20 of
    a zone whose offset does not change. *)
Lemma handlePublish_heads_list_witness :
  exists rest,
    handleListPosts fixedZone None
      (fst (handlePublish sampleLowerCase sampleSecret 20 None (publishRequest postA) sampleDB))
    = jsonResponse (JSONPosts (summaryOf sampleLowerCase postA 20 :: rest)).
Proof.
  refine (handlePublish_heads_list sampleLowerCase fixedZone sampleSecret 20
            (publishRequest postA) postA sampleDB eq_refl eq_refl _ _).
  - vm_compute. reflexivity.
  - intros slug stored Hin. unfold sampleDB in Hin.
    apply lookup_singleton_Some in Hin. destruct Hin as [_ <-].
    right. split; [reflexivity|simpl; lia].
Defined.

(** X20: no history of publish, update and delete requests whose X-MALT-KEY
    headers all differ from the secret changes the table. *)
Theorem keyless_history (lower : rune -> rune) (secret : option gostring)
    (ws : list write) (db : table) :
  Forall (fun w => Header_Get (X_MALT_KEY (requestOf w)) <> os_Getenv secret) ws ->
  serveWrites lower secret ws db = db.
Proof.
  intros Hws. induction Hws as [|w ws Hw _ IH]; simpl; [reflexivity|].
  assert (Hstep : fst (serveWrite lower secret w db) = db).
  { destruct w as [now fault r|fault r|fault r]; simpl in *;
      unfold handlePublish, handleDeletePost, handleUpdatePost;
      now destruct (decide (Header_Get (X_MALT_KEY r) <> os_Getenv secret)). }
  now rewrite Hstep.
Qed.

(** X20 at a publish with a wrong key, a delete without a key and an update
    with a wrong key. *)
Lemma keyless_history_witness :
  serveWrites sampleLowerCase sampleSecret
    [ POST_publish 20 None badRequest; DELETE_post None bareRequest;
      PUT_post None badRequest ] sampleDB
  = sampleDB.
Proof.
  apply (keyless_history sampleLowerCase sampleSecret
           [ POST_publish 20 None badRequest; DELETE_post None bareRequest;
             PUT_post None badRequest ] sampleDB).
  repeat constructor; vm_compute; discriminate.
Defined.
